(** * Verification of the mock_zmq native stub

    Shallow embedding of [native/src/mock_zmq.c]: three loops over a
    caller-supplied byte buffer ([mock_send], [mock_recv],
    [mock_transform]).

    The C functions receive a pointer and a length.  The pointer is modelled
    by the memory it points into: the list of the bytes of the caller's
    object, starting at the pointer (the "backing storage").  A function is
    a computation in a small state-and-error monad over that memory, so a
    read-only function has to be proved not to change it.  An access outside
    the backing storage is undefined behaviour in C and is the error of the
    monad. *)

From Stdlib Require Import ZArith Lia.
From stdpp Require Import base option list.

Open Scope Z_scope.

(** ** Fixed-width integers of <stdint.h> / <stddef.h> *)

Definition INT64_MAX : Z := 2 ^ 63 - 1.
Definition INT64_MIN : Z := - 2 ^ 63.
Definition SIZE_MAX : Z := 2 ^ 64 - 1.
Definition PTRDIFF_MAX : Z := 2 ^ 63 - 1.

(** Conversion to [uint8_t]: reduction modulo 2^8. *)
Definition wrap_u8 (z : Z) : Z := z mod 2 ^ 8.

(** Conversion to [int64_t], and the result of [int64_t] arithmetic: two's
    complement wrap-around, which is what the compiled code does (the sum of
    mock_send can leave the range only past 2^63 / 255 bytes). *)
Definition wrap_s64 (z : Z) : Z := (z + 2 ^ 63) mod 2 ^ 64 - 2 ^ 63.

Definition is_u8 (z : Z) : Prop := 0 <= z < 2 ^ 8.
Definition is_s64 (z : Z) : Prop := INT64_MIN <= z <= INT64_MAX.

(** ** Memory, and the monad of memory-accessing code *)

Abbreviation mem := (list Z).

Definition M (A : Type) : Type := mem -> option (A * mem).

Definition ret {A} (a : A) : M A := fun m => Some (a, m).

Definition bind {A B} (c : M A) (k : A -> M B) : M B :=
  fun m => match c m with
           | Some (a, m') => k a m'
           | None => None
           end.

Notation "x <- c ;; k" := (bind c (fun x => k))
  (at level 100, c at next level, right associativity).

(** [p[i]] as an rvalue; [None] when [i] is outside the object. *)
Definition load (i : Z) : M Z :=
  fun m => match m !! Z.to_nat i with
           | Some v => Some (v, m)
           | None => None
           end.

(** [p[i] = v]; [None] when [i] is outside the object. *)
Definition store (i : Z) (v : Z) : M unit :=
  fun m => match m !! Z.to_nat i with
           | Some _ => Some (tt, <[Z.to_nat i := v]> m)
           | None => None
           end.

(** [for (size_t i = start; ...; i++) body], run for [k] iterations; [a] is
    the value of the local variables the body updates. *)
Fixpoint for_range {A} (k : nat) (i : Z) (body : Z -> A -> M A) (a : A) : M A :=
  match k with
  | O => ret a
  | S k' => a' <- body i a ;; for_range k' (i + 1) body a'
  end.

(** [for (size_t i = 0; i < len; i++) body]: with [i] starting at 0 and
    stepping by one, the test [i < len] holds for exactly [len] iterations
    ([i] cannot wrap, as [i < len <= SIZE_MAX]). *)
Definition for_upto {A} (len : Z) (body : Z -> A -> M A) (a : A) : M A :=
  for_range (Z.to_nat len) 0 body a.

(** ** The three functions of mock_zmq.c *)

(** [checksum += data[i];] *)
Definition send_body (i : Z) (checksum : Z) : M Z :=
  d <- load i ;; ret (wrap_s64 (checksum + d)).

(** [int64_t mock_send(const uint8_t* data, size_t len)] *)
Definition mock_send (data : mem) (len : Z) : option (Z * mem) :=
  (let checksum := 0 in
   checksum <- for_upto len send_body checksum ;;
   ret checksum) data.

(** [buf[i] = (uint8_t)(i & 0xFF);] *)
Definition recv_body (i : Z) (_ : unit) : M unit :=
  store i (wrap_u8 (Z.land i 0xFF)).

(** [int64_t mock_recv(uint8_t* buf, size_t len)] *)
Definition mock_recv (buf : mem) (len : Z) : option (Z * mem) :=
  (_ <- for_upto len recv_body tt ;;
   ret (wrap_s64 len)) buf.

(** [data[i] ^= 0xAA;]: the byte is promoted to [int], XORed, and converted
    back to [uint8_t]. *)
Definition transform_body (i : Z) (_ : unit) : M unit :=
  d <- load i ;; store i (wrap_u8 (Z.lxor d 0xAA)).

(** [void mock_transform(uint8_t* data, size_t len)] *)
Definition mock_transform (data : mem) (len : Z) : option (unit * mem) :=
  for_upto len transform_body tt data.

(** ** Well-formed arguments *)

(** Every cell of a [uint8_t] object holds a value in 0..255, and no object
    is larger than [PTRDIFF_MAX] bytes. *)
Definition wf_mem (m : mem) : Prop :=
  Forall is_u8 m /\ Z.of_nat (length m) <= PTRDIFF_MAX.

(** The contract of the three functions: the pointer is valid for [len]
    bytes. *)
Definition valid_buffer (m : mem) (len : Z) : Prop :=
  wf_mem m /\ 0 <= len <= Z.of_nat (length m).

(** The buffer proper: the first [len] bytes of the backing storage. *)
Definition contents (m : mem) (len : Z) : mem := take (Z.to_nat len) m.

(** What lies behind the buffer in the backing storage. *)
Definition beyond (m : mem) (len : Z) : mem := drop (Z.to_nat len) m.

(** Sum of a list of byte values, as an unbounded integer. *)
Definition byte_sum (l : list Z) : Z := foldr Z.add 0 l.

(** The pointer is valid for [len] bytes of an object of admissible size;
    nothing is asked of the bytes themselves. *)
Definition in_bounds (m : mem) (len : Z) : Prop :=
  0 <= len <= Z.of_nat (length m) /\ Z.of_nat (length m) <= PTRDIFF_MAX.

(** The byte mock_recv leaves at position [p]. *)
Definition pattern_at (p : nat) : Z := Z.of_nat p mod 256.

(** The bytes mock_recv writes into a buffer of [len] bytes. *)
Definition pattern_fill (len : Z) : list Z := pattern_at <$> seq 0 (Z.to_nat len).

(** The byte mock_transform puts in place of [d]. *)
Definition masked (d : Z) : Z := wrap_u8 (Z.lxor d 0xAA).

(** The same loop with its test written out, on a budget of iterations;
    [for_upto_tested] shows that it is [for_upto] once the budget exceeds
    [len]. *)
Fixpoint for_tested {A} (fuel : nat) (i len : Z) (body : Z -> A -> M A) (a : A) : M A :=
  match fuel with
  | O => fun _ => None
  | S fuel' =>
      if i <? len then a' <- body i a ;; for_tested fuel' (i + 1) len body a'
      else ret a
  end.

(** The checksum of a buffer of [len] bytes holding the pattern of
    mock_recv: [len / 256] full periods 0..255, each of sum 32640, and the
    sum 0 + 1 + ... of the remaining [len mod 256] bytes. *)
Definition pattern_checksum (len : Z) : Z :=
  32640 * (len / 256) + (len mod 256) * (len mod 256 - 1) / 2.

Ltac concrete_buffer :=
  unfold valid_buffer, wf_mem, in_bounds, is_u8, PTRDIFF_MAX;
  repeat split; try (repeat constructor; lia); simpl; lia.

(** ** Running the code *)

Example send_1234 : mock_send [1; 2; 3; 4] 4 = Some (10, [1; 2; 3; 4]).
Proof. reflexivity. Qed.

Example transform_3 : mock_transform [0x00; 0xFF; 0xAA] 3 = Some (tt, [0xAA; 0x55; 0x00]).
Proof. reflexivity. Qed.

Example recv_3_of_5 : mock_recv [9; 9; 9; 9; 9] 3 = Some (3, [0; 1; 2; 9; 9]).
Proof. reflexivity. Qed.

Example send_out_of_bounds : mock_send [1; 2] 3 = None.
Proof. reflexivity. Qed.

(** ** Integer lemmas *)

Lemma wrap_s64_id z : is_s64 z -> wrap_s64 z = z.
Proof.
  unfold is_s64, INT64_MIN, INT64_MAX, wrap_s64. intros Hz.
  rewrite Z.mod_small; lia.
Qed.

Lemma wrap_s64_range z : is_s64 (wrap_s64 z).
Proof.
  unfold is_s64, INT64_MIN, INT64_MAX, wrap_s64.
  pose proof (Z.mod_pos_bound (z + 2 ^ 63) (2 ^ 64)). lia.
Qed.

Lemma wrap_s64_add_l a b : wrap_s64 (wrap_s64 a + b) = wrap_s64 (a + b).
Proof.
  unfold wrap_s64. f_equal.
  replace ((a + 2 ^ 63) mod 2 ^ 64 - 2 ^ 63 + b + 2 ^ 63)
    with ((a + 2 ^ 63) mod 2 ^ 64 + b) by lia.
  rewrite Zplus_mod_idemp_l. f_equal. lia.
Qed.

Lemma wrap_u8_id z : is_u8 z -> wrap_u8 z = z.
Proof. unfold is_u8, wrap_u8. intros Hz. apply Z.mod_small. lia. Qed.

Lemma wrap_u8_range z : is_u8 (wrap_u8 z).
Proof. unfold is_u8, wrap_u8. apply Z.mod_pos_bound. lia. Qed.

(** [i & 0xFF] keeps the low eight bits, so the cast to [uint8_t] after it
    changes nothing. *)
Lemma pattern_byte i : 0 <= i -> wrap_u8 (Z.land i 0xFF) = i mod 256.
Proof.
  intros Hi. unfold wrap_u8.
  change 0xFF with (Z.ones 8). rewrite Z.land_ones by lia.
  change (2 ^ 8) with 256. apply Z.mod_mod. lia.
Qed.

Lemma lxor_u8 a b : is_u8 a -> is_u8 b -> is_u8 (Z.lxor a b).
Proof.
  unfold is_u8. intros Ha Hb.
  assert (Hnn : 0 <= Z.lxor a b) by (apply Z.lxor_nonneg; lia).
  split; [exact Hnn |].
  destruct (Z.eq_dec (Z.lxor a b) 0) as [-> | Hne]; [lia |].
  apply Z.log2_lt_pow2; [lia |].
  pose proof (Z.log2_lxor a b ltac:(lia) ltac:(lia)) as Hlog.
  assert (Z.log2 a < 8).
  { destruct (Z.eq_dec a 0) as [-> | ?]; [simpl; lia |].
    apply Z.log2_lt_pow2; lia. }
  assert (Z.log2 b < 8).
  { destruct (Z.eq_dec b 0) as [-> | ?]; [simpl; lia |].
    apply Z.log2_lt_pow2; lia. }
  lia.
Qed.

(** On a byte, the XOR with the mask stays a byte, and the cast is void. *)
Lemma transform_byte d : is_u8 d -> wrap_u8 (Z.lxor d 0xAA) = Z.lxor d 0xAA.
Proof.
  intros Hd. apply wrap_u8_id, lxor_u8; [exact Hd |]. unfold is_u8. lia.
Qed.

Lemma lxor_twice d k : Z.lxor (Z.lxor d k) k = d.
Proof. rewrite Z.lxor_assoc, Z.lxor_nilpotent. apply Z.lxor_0_r. Qed.

Lemma byte_sum_bounds (l : list Z) :
  Forall is_u8 l -> 0 <= byte_sum l <= 255 * Z.of_nat (length l).
Proof.
  unfold is_u8. induction 1 as [| x l Hx _ IH]; simpl in *; lia.
Qed.

(** ** Memory lemmas *)

Lemma load_Some (m : mem) (j : nat) d :
  m !! j = Some d -> load (Z.of_nat j) m = Some (d, m).
Proof. intros H. unfold load. rewrite Nat2Z.id, H. reflexivity. Qed.

Lemma store_Some (m : mem) (j : nat) d v :
  m !! j = Some d -> store (Z.of_nat j) v m = Some (tt, <[j := v]> m).
Proof. intros H. unfold store. rewrite Nat2Z.id, H. reflexivity. Qed.

Lemma next_index (j : nat) : Z.of_nat j + 1 = Z.of_nat (S j).
Proof. lia. Qed.

(** ** The loop of mock_send *)

Lemma send_loop_spec k : forall (j : nat) acc (m : mem),
  (j + k <= length m)%nat -> is_s64 acc ->
  for_range k (Z.of_nat j) send_body acc m
  = Some (wrap_s64 (acc + byte_sum (take k (drop j m))), m).
Proof.
  induction k as [| k IH]; intros j acc m Hlen Hacc.
  - simpl. rewrite Z.add_0_r, wrap_s64_id by exact Hacc.
    reflexivity.
  - destruct (lookup_lt_is_Some_2 m j ltac:(lia)) as [d Hd].
    cbn [for_range]. unfold bind at 1, send_body, bind at 1.
    rewrite (load_Some _ _ _ Hd). unfold ret at 1.
    rewrite next_index, IH; [| lia | apply wrap_s64_range].
    rewrite (drop_S _ _ _ Hd). cbn [take byte_sum foldr].
    fold (byte_sum (take k (drop (S j) m))).
    rewrite wrap_s64_add_l, Z.add_assoc. reflexivity.
Qed.

(** ** Loops that update each byte in place *)

Section PointwiseLoop.
Variable body : Z -> unit -> M unit.
Variable g : nat -> Z -> Z.
Hypothesis body_step : forall (j : nat) (m : mem) d,
  m !! j = Some d -> body (Z.of_nat j) tt m = Some (tt, <[j := g j d]> m).

Lemma pointwise_loop_spec k : forall (j : nat) (m : mem),
  (j + k <= length m)%nat ->
  exists m' : mem,
    for_range k (Z.of_nat j) body tt m = Some (tt, m')
    /\ length m' = length m
    /\ forall p : nat,
         m' !! p = if decide (j <= p < j + k)%nat then g p <$> m !! p else m !! p.
Proof.
  induction k as [| k IH]; intros j m Hlen.
  - exists m. repeat split. intros p. case_decide; [lia | reflexivity].
  - destruct (lookup_lt_is_Some_2 m j ltac:(lia)) as [d Hd].
    destruct (IH (S j) (<[j := g j d]> m)) as (m' & Hrun & Hlen' & Hget).
    { rewrite length_insert. lia. }
    exists m'. split; [| split].
    + cbn [for_range]. unfold bind. rewrite (body_step _ _ _ Hd).
      rewrite next_index. exact Hrun.
    + rewrite Hlen'. apply length_insert.
    + intros p. rewrite Hget. destruct (decide (p = j)) as [-> | Hne].
      * rewrite list_lookup_insert_eq by lia.
        repeat case_decide; try lia. rewrite Hd. reflexivity.
      * rewrite list_lookup_insert_ne by congruence.
        repeat case_decide; try lia; reflexivity.
Qed.
End PointwiseLoop.

(** ** The loop test *)

Lemma for_tested_range {A} (body : Z -> A -> M A) (len : Z) (k : nat) :
  forall (fuel : nat) (i : Z) (a : A) (m : mem),
    Z.to_nat (len - i) = k -> (k < fuel)%nat ->
    for_tested fuel i len body a m = for_range k i body a m.
Proof.
  induction k as [| k IH]; intros fuel i a m Hk Hfuel;
    (destruct fuel as [| fuel]; [lia |]); cbn [for_tested for_range].
  - destruct (Z.ltb_spec i len); [lia | reflexivity].
  - destruct (Z.ltb_spec i len); [| lia].
    unfold bind. destruct (body i a m) as [[a' m'] |]; [| reflexivity].
    apply IH; lia.
Qed.

(** With a budget above [len], the loop with the test [i < len] is
    [for_upto len]: it stops by its test, after [len] iterations. *)
Lemma for_upto_tested {A} (body : Z -> A -> M A) (len : Z) (fuel : nat) (a : A) (m : mem) :
  (Z.to_nat len < fuel)%nat ->
  for_tested fuel 0 len body a m = for_upto len body a m.
Proof.
  intros Hfuel. unfold for_upto. apply for_tested_range; [f_equal |]; lia.
Qed.

(** ** What each function computes *)

Lemma valid_in_bounds m len : valid_buffer m len -> in_bounds m len.
Proof. unfold valid_buffer, wf_mem, in_bounds. tauto. Qed.

Lemma recv_body_step (j : nat) (m : mem) d :
  m !! j = Some d ->
  recv_body (Z.of_nat j) tt m = Some (tt, <[j := pattern_at j]> m).
Proof.
  intros Hd. unfold recv_body. rewrite (store_Some _ _ _ _ Hd).
  rewrite pattern_byte by lia. reflexivity.
Qed.

Lemma transform_body_step (j : nat) (m : mem) d :
  m !! j = Some d ->
  transform_body (Z.of_nat j) tt m = Some (tt, <[j := masked d]> m).
Proof.
  intros Hd. unfold transform_body, bind.
  rewrite (load_Some _ _ _ Hd). apply (store_Some _ _ _ _ Hd).
Qed.

Lemma mock_send_spec (data : mem) len :
  0 <= len <= Z.of_nat (length data) ->
  mock_send data len = Some (wrap_s64 (byte_sum (contents data len)), data).
Proof.
  intros Hlen.
  assert (H0 : is_s64 0) by (unfold is_s64, INT64_MIN, INT64_MAX; lia).
  pose proof (send_loop_spec (Z.to_nat len) 0 0 data ltac:(lia) H0) as Hrun.
  change (Z.of_nat 0) with 0 in Hrun. rewrite drop_0 in Hrun.
  unfold mock_send, for_upto, bind. rewrite Hrun. reflexivity.
Qed.

Lemma mock_recv_spec (buf : mem) len :
  0 <= len <= Z.of_nat (length buf) ->
  exists buf' : mem,
    mock_recv buf len = Some (wrap_s64 len, buf')
    /\ length buf' = length buf
    /\ forall p : nat,
         buf' !! p = if decide (p < Z.to_nat len)%nat
                     then Some (pattern_at p) else buf !! p.
Proof.
  intros Hlen.
  destruct (pointwise_loop_spec recv_body (fun j _ => pattern_at j)
              recv_body_step (Z.to_nat len) 0 buf ltac:(lia))
    as (buf' & Hrun & Hlen' & Hget).
  exists buf'. split; [| split].
  - unfold mock_recv, for_upto, bind. change (Z.of_nat 0) with 0 in Hrun.
    rewrite Hrun. reflexivity.
  - exact Hlen'.
  - intros p. rewrite Hget. repeat case_decide; try lia; [| reflexivity].
    destruct (lookup_lt_is_Some_2 buf p ltac:(lia)) as [d ->]. reflexivity.
Qed.

Lemma mock_transform_spec (data : mem) len :
  0 <= len <= Z.of_nat (length data) ->
  exists data' : mem,
    mock_transform data len = Some (tt, data')
    /\ length data' = length data
    /\ forall p : nat,
         data' !! p = if decide (p < Z.to_nat len)%nat
                      then masked <$> data !! p else data !! p.
Proof.
  intros Hlen.
  destruct (pointwise_loop_spec transform_body (fun _ d => masked d)
              transform_body_step (Z.to_nat len) 0 data ltac:(lia))
    as (data' & Hrun & Hlen' & Hget).
  exists data'. split; [| split].
  - unfold mock_transform, for_upto. exact Hrun.
  - exact Hlen'.
  - intros p. rewrite Hget. repeat case_decide; try lia; reflexivity.
Qed.

Lemma masked_byte d : is_u8 d -> masked d = Z.lxor d 0xAA.
Proof. apply transform_byte. Qed.

Lemma masked_u8 d : is_u8 (masked d).
Proof. apply wrap_u8_range. Qed.

Lemma masked_twice d : is_u8 d -> masked (masked d) = d.
Proof.
  intros Hd. rewrite (masked_byte d Hd).
  assert (Hx : is_u8 (Z.lxor d 0xAA)).
  { rewrite <- (masked_byte d Hd). apply masked_u8. }
  rewrite (masked_byte _ Hx). apply lxor_twice.
Qed.


(** Two memories with the same length that agree on every position are the
    same; two results are compared through their buffer part and the part
    beyond it. *)
Lemma contents_lookup (m : mem) len (p : nat) :
  contents m len !! p = if decide (p < Z.to_nat len)%nat then m !! p else None.
Proof.
  unfold contents. case_decide.
  - apply lookup_take_lt. lia.
  - apply lookup_take_ge. lia.
Qed.

Lemma beyond_lookup (m : mem) len (p : nat) :
  beyond m len !! p = m !! (Z.to_nat len + p)%nat.
Proof. unfold beyond. apply lookup_drop. Qed.

Lemma contents_all (m : mem) len :
  Z.of_nat (length m) = len -> contents m len = m.
Proof. intros <-. unfold contents. rewrite Nat2Z.id. apply firstn_all. Qed.

(** ** mock_send *)

(** C1: on a buffer valid for [len] bytes, mock_send returns the sum of the
    [len] byte values, each taken as an unsigned value 0..255, accumulated in
    a 64-bit signed integer: the sum wrapped to 64 bits, which is the sum
    itself whenever it fits; for [len = 0] it returns 0. *)
Theorem mock_send_returns_sum (data : mem) (len : Z) :
  valid_buffer data len ->
  Forall is_u8 (contents data len)
  /\ fst <$> mock_send data len = Some (wrap_s64 (byte_sum (contents data len)))
  /\ (byte_sum (contents data len) <= INT64_MAX ->
      fst <$> mock_send data len = Some (byte_sum (contents data len)))
  /\ (len = 0 -> fst <$> mock_send data len = Some 0).
Proof.
  intros [[Hu8 Hmax] Hlen].
  assert (Hc : Forall is_u8 (contents data len)) by (apply Forall_take, Hu8).
  rewrite (mock_send_spec data len Hlen). cbn [fmap option_fmap option_map fst].
  split; [exact Hc |]. split; [reflexivity |]. split.
  - intros Hfit. rewrite wrap_s64_id; [reflexivity |].
    pose proof (byte_sum_bounds _ Hc). unfold is_s64, INT64_MIN. lia.
  - intros ->. reflexivity.
Qed.

Lemma mock_send_returns_sum_witness :
  valid_buffer [200; 100; 255; 7] 3
  /\ fst <$> mock_send [200; 100; 255; 7] 3 = Some 555.
Proof.
  assert (H : valid_buffer [200; 100; 255; 7] 3) by concrete_buffer.
  split; [exact H |].
  exact (proj1 (proj2 (mock_send_returns_sum _ _ H))).
Defined.

(** C5: mock_send does not modify the buffer: it returns, and the memory
    after the call is the memory before it, byte for byte. *)
Theorem mock_send_leaves_buffer (data : mem) (len : Z) :
  valid_buffer data len ->
  exists checksum data',
    mock_send data len = Some (checksum, data')
    /\ data' = data
    /\ forall p : nat, data' !! p = data !! p.
Proof.
  intros [_ Hlen]. eexists _, data.
  split; [apply (mock_send_spec data len Hlen) |]. split; reflexivity.
Qed.

Lemma mock_send_leaves_buffer_witness :
  valid_buffer [200; 100; 255; 7] 3
  /\ exists checksum, mock_send [200; 100; 255; 7] 3 = Some (checksum, [200; 100; 255; 7]).
Proof.
  assert (H : valid_buffer [200; 100; 255; 7] 3) by concrete_buffer.
  split; [exact H |].
  destruct (mock_send_leaves_buffer _ _ H) as (c & d' & Hrun & -> & _).
  exists c. exact Hrun.
Defined.

(** C10: when [255 * len < 2^63], so that the accumulator cannot overflow,
    the value mock_send returns is nonnegative and at most [255 * len]. *)
Theorem mock_send_bounds (data : mem) (len : Z) :
  valid_buffer data len -> 255 * len < 2 ^ 63 ->
  exists checksum,
    fst <$> mock_send data len = Some checksum
    /\ 0 <= checksum <= 255 * len.
Proof.
  intros [[Hu8 Hmax] Hlen] Hfit.
  rewrite (mock_send_spec data len Hlen). cbn [fmap option_fmap option_map fst].
  eexists. split; [reflexivity |].
  pose proof (byte_sum_bounds (contents data len) (Forall_take _ _ _ Hu8)) as Hb.
  unfold contents in *. rewrite length_take in Hb.
  rewrite wrap_s64_id; [lia |]. unfold is_s64, INT64_MIN, INT64_MAX. lia.
Qed.

Lemma mock_send_bounds_witness :
  valid_buffer [255; 255; 0; 9] 3 /\ 255 * 3 < 2 ^ 63
  /\ exists checksum,
       fst <$> mock_send [255; 255; 0; 9] 3 = Some checksum
       /\ 0 <= checksum <= 255 * 3.
Proof.
  assert (H : valid_buffer [255; 255; 0; 9] 3) by concrete_buffer.
  assert (Hfit : 255 * 3 < 2 ^ 63) by lia.
  split; [exact H |]. split; [exact Hfit |].
  exact (mock_send_bounds _ _ H Hfit).
Defined.

(** ** mock_recv *)

Lemma pattern_fill_lookup len (p : nat) :
  pattern_fill len !! p
  = if decide (p < Z.to_nat len)%nat then Some (pattern_at p) else None.
Proof.
  unfold pattern_fill. rewrite list_lookup_fmap. case_decide.
  - rewrite lookup_seq_lt by lia. reflexivity.
  - rewrite lookup_seq_ge by lia. reflexivity.
Qed.

(** The whole effect of mock_recv: it returns [len], writes the pattern into
    the buffer, and leaves what lies beyond it. *)
Lemma mock_recv_full (buf : mem) len :
  in_bounds buf len ->
  exists buf' : mem,
    mock_recv buf len = Some (len, buf')
    /\ length buf' = length buf
    /\ contents buf' len = pattern_fill len
    /\ beyond buf' len = beyond buf len.
Proof.
  intros [Hlen Hmax].
  destruct (mock_recv_spec buf len Hlen) as (buf' & Hrun & Hlen' & Hget).
  exists buf'. split; [| split; [exact Hlen' | split]].
  - rewrite Hrun, wrap_s64_id; [reflexivity |].
    unfold is_s64, INT64_MIN, INT64_MAX, PTRDIFF_MAX in *. lia.
  - apply list_eq. intros p.
    rewrite contents_lookup, pattern_fill_lookup, Hget.
    case_decide; reflexivity.
  - apply list_eq. intros p. rewrite !beyond_lookup, Hget.
    case_decide; [lia | reflexivity].
Qed.

(** C2: after mock_recv on a buffer valid for [len] bytes, the byte at each
    position [i] of [0, len) is [i mod 256], and the value returned is
    [len]. *)
Theorem mock_recv_pattern (buf : mem) (len : Z) :
  in_bounds buf len ->
  exists buf' : mem,
    mock_recv buf len = Some (len, buf')
    /\ forall i, 0 <= i < len -> buf' !! Z.to_nat i = Some (i mod 256).
Proof.
  intros [Hlen Hmax].
  destruct (mock_recv_spec buf len Hlen) as (buf' & Hrun & _ & Hget).
  exists buf'. split.
  - rewrite Hrun, wrap_s64_id; [reflexivity |].
    unfold is_s64, INT64_MIN, INT64_MAX, PTRDIFF_MAX in *. lia.
  - intros i Hi. rewrite Hget. case_decide; [| lia].
    unfold pattern_at. rewrite Z2Nat.id by lia. reflexivity.
Qed.

Lemma mock_recv_pattern_witness :
  in_bounds [7; 7; 7; 7; 7] 3
  /\ exists buf' : mem,
       mock_recv [7; 7; 7; 7; 7] 3 = Some (3, buf') /\ buf' !! 2%nat = Some 2.
Proof.
  assert (H : in_bounds [7; 7; 7; 7; 7] 3) by concrete_buffer.
  split; [exact H |].
  destruct (mock_recv_pattern _ _ H) as (buf' & Hrun & Hget).
  exists buf'. split; [exact Hrun |]. exact (Hget 2 ltac:(lia)).
Defined.

(** C6: the outcome of mock_recv does not depend on what the buffer held:
    on two memories valid for [len] bytes it returns the same value and
    leaves the same buffer contents, namely [pattern_fill len], a function of
    [len] and of the positions alone; when both memories are exactly [len]
    bytes long, the two resulting memories are equal. *)
Theorem mock_recv_oblivious (b1 b2 : mem) (len : Z) :
  in_bounds b1 len -> in_bounds b2 len ->
  exists r (c1 c2 : mem),
    mock_recv b1 len = Some (r, c1)
    /\ mock_recv b2 len = Some (r, c2)
    /\ contents c1 len = pattern_fill len
    /\ contents c2 len = pattern_fill len
    /\ (Z.of_nat (length b1) = len -> Z.of_nat (length b2) = len -> c1 = c2).
Proof.
  intros H1 H2.
  destruct (mock_recv_full b1 len H1) as (c1 & Hrun1 & Hl1 & Hc1 & _).
  destruct (mock_recv_full b2 len H2) as (c2 & Hrun2 & Hl2 & Hc2 & _).
  exists len, c1, c2. repeat split; try assumption.
  intros E1 E2.
  rewrite <- (contents_all c1 len), <- (contents_all c2 len) by lia.
  congruence.
Qed.

Lemma mock_recv_oblivious_witness :
  in_bounds [11; 22; 33] 3 /\ in_bounds [255; 0; 128] 3
  /\ mock_recv [11; 22; 33] 3 = mock_recv [255; 0; 128] 3.
Proof.
  assert (H1 : in_bounds [11; 22; 33] 3) by concrete_buffer.
  assert (H2 : in_bounds [255; 0; 128] 3) by concrete_buffer.
  split; [exact H1 |]. split; [exact H2 |].
  destruct (mock_recv_oblivious _ _ _ H1 H2) as (r & c1 & c2 & R1 & R2 & _ & _ & E).
  rewrite R1, R2, (E eq_refl eq_refl). reflexivity.
Defined.

(** ** mock_transform *)

(** C4: after mock_transform on a buffer valid for [len] bytes, the byte at
    every position of [0, len) is the original byte XOR 0xAA; for [len = 0]
    the memory is unchanged; and [0x00, 0xFF, 0xAA] becomes
    [0xAA, 0x55, 0x00]. *)
Theorem mock_transform_xor :
  (forall (data : mem) (len : Z),
     valid_buffer data len ->
     exists data' : mem,
       mock_transform data len = Some (tt, data')
       /\ (forall i d, 0 <= i < len -> data !! Z.to_nat i = Some d ->
             data' !! Z.to_nat i = Some (Z.lxor d 0xAA))
       /\ (len = 0 -> data' = data))
  /\ mock_transform [0x00; 0xFF; 0xAA] 3 = Some (tt, [0xAA; 0x55; 0x00]).
Proof.
  split; [| reflexivity].
  intros data len [[Hu8 Hmax] Hlen].
  destruct (mock_transform_spec data len Hlen) as (data' & Hrun & Hlen' & Hget).
  exists data'. split; [exact Hrun |]. split.
  - intros i d Hi Hd. rewrite Hget. case_decide; [| lia].
    rewrite Hd. cbn [fmap option_fmap option_map]. f_equal.
    apply masked_byte. exact (proj1 (Forall_lookup _ _) Hu8 _ _ Hd).
  - intros ->. apply list_eq. intros p. rewrite Hget.
    case_decide; [lia | reflexivity].
Qed.

Lemma mock_transform_xor_witness :
  valid_buffer [0x0F; 0xF0; 0x33] 2
  /\ exists data' : mem,
       mock_transform [0x0F; 0xF0; 0x33] 2 = Some (tt, data')
       /\ data' !! 1%nat = Some 0x5A.
Proof.
  assert (H : valid_buffer [0x0F; 0xF0; 0x33] 2) by concrete_buffer.
  split; [exact H |].
  destruct (proj1 mock_transform_xor _ _ H) as (data' & Hrun & Hget & _).
  exists data'. split; [exact Hrun |].
  exact (Hget 1 0xF0 ltac:(lia) eq_refl).
Defined.

(** C3: mock_transform is its own inverse: applied twice in succession to a
    buffer valid for [len] bytes, it restores the original contents. *)
Theorem mock_transform_involutive (data : mem) (len : Z) :
  valid_buffer data len ->
  exists data' : mem,
    mock_transform data len = Some (tt, data')
    /\ mock_transform data' len = Some (tt, data).
Proof.
  intros Hv. pose proof Hv as [[Hu8 Hmax] Hlen].
  destruct (mock_transform_spec data len Hlen) as (data' & Hrun & Hlen' & Hget).
  exists data'. split; [exact Hrun |].
  destruct (mock_transform_spec data' len ltac:(lia)) as (data'' & Hrun2 & Hlen2 & Hget2).
  rewrite Hrun2. do 2 f_equal. apply list_eq. intros p.
  rewrite Hget2, Hget. case_decide; [| reflexivity].
  destruct (data !! p) as [d |] eqn:Hd; [| reflexivity].
  cbn [fmap option_fmap option_map]. f_equal.
  apply masked_twice. exact (proj1 (Forall_lookup _ _) Hu8 _ _ Hd).
Qed.

Lemma mock_transform_involutive_witness :
  valid_buffer [0x00; 0xFF; 0xAA; 0x42] 3
  /\ mock_transform [0x00; 0xFF; 0xAA; 0x42] 3 = Some (tt, [0xAA; 0x55; 0x00; 0x42])
  /\ mock_transform [0xAA; 0x55; 0x00; 0x42] 3 = Some (tt, [0x00; 0xFF; 0xAA; 0x42]).
Proof.
  assert (H : valid_buffer [0x00; 0xFF; 0xAA; 0x42] 3) by concrete_buffer.
  split; [exact H |].
  destruct (mock_transform_involutive _ _ H) as (data' & Hrun & Hback).
  assert (E : data' = [0xAA; 0x55; 0x00; 0x42]).
  { assert (Hc : mock_transform [0x00; 0xFF; 0xAA; 0x42] 3
                 = Some (tt, [0xAA; 0x55; 0x00; 0x42])) by reflexivity.
    congruence. }
  rewrite E in Hrun, Hback. split; [exact Hrun | exact Hback].
Defined.

(** The whole effect of mock_transform: the buffer is masked byte by byte,
    and what lies beyond it is left. *)
Lemma mock_transform_full (data : mem) len :
  0 <= len <= Z.of_nat (length data) ->
  exists data' : mem,
    mock_transform data len = Some (tt, data')
    /\ length data' = length data
    /\ contents data' len = masked <$> contents data len
    /\ beyond data' len = beyond data len.
Proof.
  intros Hlen.
  destruct (mock_transform_spec data len Hlen) as (data' & Hrun & Hlen' & Hget).
  exists data'. split; [exact Hrun | split; [exact Hlen' | split]].
  - apply list_eq. intros p.
    rewrite list_lookup_fmap, !contents_lookup, Hget.
    case_decide; reflexivity.
  - apply list_eq. intros p. rewrite !beyond_lookup, Hget.
    case_decide; [lia | reflexivity].
Qed.

(** ** Frame and independence properties *)

(** C9: mock_recv and mock_transform write only within [0, len): in the
    memory after the call, every byte at a position [>= len] of the backing
    storage is what it was, and the storage has the same size. *)
Theorem writes_stay_within_len (m : mem) (len : Z) :
  in_bounds m len ->
  (exists r (m' : mem),
     mock_recv m len = Some (r, m')
     /\ length m' = length m
     /\ forall i, len <= i -> m' !! Z.to_nat i = m !! Z.to_nat i)
  /\ (exists m' : mem,
        mock_transform m len = Some (tt, m')
        /\ length m' = length m
        /\ forall i, len <= i -> m' !! Z.to_nat i = m !! Z.to_nat i).
Proof.
  intros [Hlen Hmax]. split.
  - destruct (mock_recv_spec m len Hlen) as (m' & Hrun & Hlen' & Hget).
    exists (wrap_s64 len), m'. repeat split; try assumption.
    intros i Hi. rewrite Hget. case_decide; [lia | reflexivity].
  - destruct (mock_transform_spec m len Hlen) as (m' & Hrun & Hlen' & Hget).
    exists m'. repeat split; try assumption.
    intros i Hi. rewrite Hget. case_decide; [lia | reflexivity].
Qed.

Lemma writes_stay_within_len_witness :
  in_bounds [1; 2; 3; 4; 5] 2
  /\ (exists r (m' : mem),
        mock_recv [1; 2; 3; 4; 5] 2 = Some (r, m') /\ m' !! 2%nat = Some 3)
  /\ (exists m' : mem,
        mock_transform [1; 2; 3; 4; 5] 2 = Some (tt, m') /\ m' !! 4%nat = Some 5).
Proof.
  assert (H : in_bounds [1; 2; 3; 4; 5] 2) by concrete_buffer.
  split; [exact H |].
  destruct (writes_stay_within_len _ _ H)
    as [(r & m1 & R1 & _ & G1) (m2 & R2 & _ & G2)].
  split.
  - exists r, m1. split; [exact R1 |]. exact (G1 2 ltac:(lia)).
  - exists m2. split; [exact R2 |]. exact (G2 4 ltac:(lia)).
Defined.

(** C7: the three operations are functions of the buffer contents and the
    length alone.  Run on two memories whose first [len] bytes agree (and
    which may differ beyond), each operation returns the same value and
    leaves the same buffer contents; and none of them changes anything
    outside the buffer: mock_send leaves the whole memory, mock_recv and
    mock_transform leave everything beyond the first [len] bytes. *)
Theorem operations_depend_on_buffer_only (m1 m2 : mem) (len : Z) :
  valid_buffer m1 len -> valid_buffer m2 len ->
  contents m1 len = contents m2 len ->
  (exists r,
     mock_send m1 len = Some (r, m1) /\ mock_send m2 len = Some (r, m2))
  /\ (exists r (c1 c2 : mem),
        mock_recv m1 len = Some (r, c1) /\ mock_recv m2 len = Some (r, c2)
        /\ contents c1 len = contents c2 len
        /\ beyond c1 len = beyond m1 len /\ beyond c2 len = beyond m2 len)
  /\ (exists c1 c2 : mem,
        mock_transform m1 len = Some (tt, c1)
        /\ mock_transform m2 len = Some (tt, c2)
        /\ contents c1 len = contents c2 len
        /\ beyond c1 len = beyond m1 len /\ beyond c2 len = beyond m2 len).
Proof.
  intros V1 V2 Heq.
  pose proof (valid_in_bounds _ _ V1) as B1.
  pose proof (valid_in_bounds _ _ V2) as B2.
  destruct V1 as [_ L1], V2 as [_ L2]. split; [| split].
  - exists (wrap_s64 (byte_sum (contents m1 len))). split.
    + apply mock_send_spec, L1.
    + rewrite Heq. apply mock_send_spec, L2.
  - destruct (mock_recv_full m1 len B1) as (c1 & R1 & _ & C1 & F1).
    destruct (mock_recv_full m2 len B2) as (c2 & R2 & _ & C2 & F2).
    exists len, c1, c2. repeat split; try assumption. congruence.
  - destruct (mock_transform_full m1 len L1) as (c1 & R1 & _ & C1 & F1).
    destruct (mock_transform_full m2 len L2) as (c2 & R2 & _ & C2 & F2).
    exists c1, c2. repeat split; try assumption. congruence.
Qed.

Lemma operations_depend_on_buffer_only_witness :
  valid_buffer [5; 6; 7; 100] 3 /\ valid_buffer [5; 6; 7; 200; 201] 3
  /\ contents [5; 6; 7; 100] 3 = contents [5; 6; 7; 200; 201] 3
  /\ (exists r,
        mock_send [5; 6; 7; 100] 3 = Some (r, [5; 6; 7; 100])
        /\ mock_send [5; 6; 7; 200; 201] 3 = Some (r, [5; 6; 7; 200; 201])).
Proof.
  assert (H1 : valid_buffer [5; 6; 7; 100] 3) by concrete_buffer.
  assert (H2 : valid_buffer [5; 6; 7; 200; 201] 3) by concrete_buffer.
  split; [exact H1 |]. split; [exact H2 |]. split; [reflexivity |].
  exact (proj1 (operations_depend_on_buffer_only _ _ _ H1 H2 eq_refl)).
Defined.

(** ** Scenarios *)

(** C8: after mock_recv(buf, 300) on a buffer of at least 300 bytes,
    buf[0] = 0, buf[255] = 255, buf[256] = 0 and buf[299] = 43; and
    mock_send([1,2,3,4], 4) = 10. *)
Theorem scenarios_recv_300_send_4 :
  (forall buf : mem,
     in_bounds buf 300 ->
     exists buf' : mem,
       mock_recv buf 300 = Some (300, buf')
       /\ buf' !! 0%nat = Some 0
       /\ buf' !! 255%nat = Some 255
       /\ buf' !! 256%nat = Some 0
       /\ buf' !! 299%nat = Some 43)
  /\ fst <$> mock_send [1; 2; 3; 4] 4 = Some 10.
Proof.
  split; [| reflexivity].
  intros buf H. pose proof H as [Hlen Hmax].
  destruct (mock_recv_full buf 300 H) as (buf' & Hrun & _ & _ & _).
  destruct (mock_recv_spec buf 300 Hlen) as (b & Hrun' & _ & Hget).
  assert (b = buf') as -> by congruence.
  exists buf'. split; [exact Hrun |].
  repeat split; rewrite Hget; (case_decide; [reflexivity | lia]).
Qed.

Lemma scenarios_recv_300_send_4_witness :
  in_bounds (replicate 300 0xFF) 300
  /\ exists buf' : mem,
       mock_recv (replicate 300 0xFF) 300 = Some (300, buf')
       /\ buf' !! 0%nat = Some 0
       /\ buf' !! 255%nat = Some 255
       /\ buf' !! 256%nat = Some 0
       /\ buf' !! 299%nat = Some 43.
Proof.
  assert (H : in_bounds (replicate 300 0xFF) 300) by concrete_buffer.
  split; [exact H |].
  exact (proj1 scenarios_recv_300_send_4 _ H).
Defined.

(** * Further properties of the three functions *)

(** ** Accesses outside the backing storage *)

Section OutOfBounds.
Context {A : Type}.
Variable body : Z -> A -> M A.
Hypothesis body_needs_cell : forall (j : nat) (a : A) (m : mem),
  m !! j = None -> body (Z.of_nat j) a m = None.
Hypothesis body_keeps_size : forall (j : nat) (a a' : A) (m m' : mem),
  body (Z.of_nat j) a m = Some (a', m') -> length m' = length m.

Lemma loop_past_the_end k : forall (j : nat) (a : A) (m : mem),
  (j <= length m < j + k)%nat ->
  for_range k (Z.of_nat j) body a m = None.
Proof.
  induction k as [| k IH]; intros j a m Hj; [lia |].
  cbn [for_range]. unfold bind.
  destruct (body (Z.of_nat j) a m) as [[a' m'] |] eqn:Hb; [| reflexivity].
  pose proof (body_keeps_size _ _ _ _ _ Hb) as Hsize.
  destruct (m !! j) as [d |] eqn:Hd.
  - apply lookup_lt_Some in Hd. rewrite next_index. apply IH. lia.
  - rewrite (body_needs_cell _ _ _ Hd) in Hb. discriminate.
Qed.
End OutOfBounds.

Lemma load_None (m : mem) (j : nat) : m !! j = None -> load (Z.of_nat j) m = None.
Proof. intros H. unfold load. rewrite Nat2Z.id, H. reflexivity. Qed.

Lemma store_None (m : mem) (j : nat) v :
  m !! j = None -> store (Z.of_nat j) v m = None.
Proof. intros H. unfold store. rewrite Nat2Z.id, H. reflexivity. Qed.

Lemma store_size (m m' : mem) (j : nat) v :
  store (Z.of_nat j) v m = Some (tt, m') -> length m' = length m.
Proof.
  unfold store. rewrite Nat2Z.id. destruct (m !! j); [| discriminate].
  intros [= <-]. apply length_insert.
Qed.

Lemma send_past_the_end (m : mem) len :
  Z.of_nat (length m) < len -> mock_send m len = None.
Proof.
  intros Hlen. unfold mock_send, for_upto, bind.
  change 0 with (Z.of_nat 0) at 1.
  rewrite (loop_past_the_end send_body); [reflexivity | | | lia].
  - intros j a m0 Hd. unfold send_body, bind. rewrite (load_None _ _ Hd). reflexivity.
  - intros j a a' m0 m' H. unfold send_body, bind, load, ret in H.
    destruct (m0 !! Z.to_nat (Z.of_nat j)); [| discriminate]. congruence.
Qed.

Lemma recv_past_the_end (m : mem) len :
  Z.of_nat (length m) < len -> mock_recv m len = None.
Proof.
  intros Hlen. unfold mock_recv, for_upto, bind.
  change 0 with (Z.of_nat 0) at 1.
  rewrite (loop_past_the_end recv_body); [reflexivity | | | lia].
  - intros j a m0 Hd. apply store_None, Hd.
  - intros j a [] m0 m' H. exact (store_size _ _ _ _ H).
Qed.

Lemma transform_past_the_end (m : mem) len :
  Z.of_nat (length m) < len -> mock_transform m len = None.
Proof.
  intros Hlen. unfold mock_transform, for_upto.
  change 0 with (Z.of_nat 0) at 1.
  apply (loop_past_the_end transform_body); [| | lia].
  - intros j a m0 Hd. unfold transform_body, bind. rewrite (load_None _ _ Hd). reflexivity.
  - intros j a [] m0 m' H. unfold transform_body, bind, load in H.
    rewrite Nat2Z.id in H. destruct (m0 !! j) eqn:Hd; [| discriminate].
    exact (store_size _ _ _ _ H).
Qed.

(** X1: each function reads or writes every index below [len], so it has a
    result exactly when [len] does not exceed the size of the backing
    storage; with a larger [len] the call runs off the end of the object
    (undefined behaviour in C, the error of the model). *)
Theorem defined_iff_len_fits (m : mem) (len : Z) :
  0 <= len ->
  (is_Some (mock_send m len) <-> len <= Z.of_nat (length m))
  /\ (is_Some (mock_recv m len) <-> len <= Z.of_nat (length m))
  /\ (is_Some (mock_transform m len) <-> len <= Z.of_nat (length m)).
Proof.
  intros H0.
  assert (Hnone : forall {B} (o : option B), o = None -> is_Some o -> False).
  { intros B o -> [x Hx]. discriminate. }
  repeat split.
  - intros Hs. destruct (Z.le_gt_cases len (Z.of_nat (length m))); [assumption |].
    destruct (Hnone _ _ (send_past_the_end m len ltac:(lia)) Hs).
  - intros Hl. rewrite (mock_send_spec m len ltac:(lia)). eauto.
  - intros Hs. destruct (Z.le_gt_cases len (Z.of_nat (length m))); [assumption |].
    destruct (Hnone _ _ (recv_past_the_end m len ltac:(lia)) Hs).
  - intros Hl. destruct (mock_recv_spec m len ltac:(lia)) as (m' & -> & _). eauto.
  - intros Hs. destruct (Z.le_gt_cases len (Z.of_nat (length m))); [assumption |].
    destruct (Hnone _ _ (transform_past_the_end m len ltac:(lia)) Hs).
  - intros Hl. destruct (mock_transform_spec m len ltac:(lia)) as (m' & -> & _). eauto.
Qed.

Lemma defined_iff_len_fits_witness :
  0 <= 3
  /\ mock_send [1; 2] 3 = None /\ mock_recv [1; 2] 3 = None
  /\ mock_transform [1; 2] 3 = None /\ is_Some (mock_transform [1; 2; 3] 3).
Proof.
  assert (H0 : 0 <= 3) by lia.
  split; [exact H0 |]. repeat split; try reflexivity.
  apply (proj2 (proj2 (defined_iff_len_fits [1; 2; 3] 3 H0))). simpl. lia.
Defined.

(** ** The checksum of mock_send *)

Lemma wrap_s64_add a b : wrap_s64 (wrap_s64 a + wrap_s64 b) = wrap_s64 (a + b).
Proof.
  rewrite wrap_s64_add_l, Z.add_comm, wrap_s64_add_l. f_equal. lia.
Qed.

Lemma byte_sum_app (l1 l2 : list Z) : byte_sum (l1 ++ l2) = byte_sum l1 + byte_sum l2.
Proof. unfold byte_sum. induction l1 as [| x l1 IH]; simpl; lia. Qed.

Lemma byte_sum_perm (l1 l2 : list Z) : l1 ≡ₚ l2 -> byte_sum l1 = byte_sum l2.
Proof. unfold byte_sum. induction 1; simpl; lia. Qed.

Lemma contents_split (m : mem) k len :
  0 <= k <= len ->
  contents m len = contents m k ++ contents (beyond m k) (len - k).
Proof.
  intros Hk. unfold contents, beyond. rewrite take_take_drop.
  f_equal. lia.
Qed.

Lemma beyond_size (m : mem) k :
  0 <= k <= Z.of_nat (length m) ->
  Z.of_nat (length (beyond m k)) = Z.of_nat (length m) - k.
Proof. intros Hk. unfold beyond. rewrite length_drop. lia. Qed.

(** X2: the checksum does not see the order of the bytes: on two buffers
    whose first [len] bytes are a rearrangement of each other, mock_send
    returns the same value. *)
Theorem mock_send_ignores_order (m1 m2 : mem) (len : Z) :
  0 <= len <= Z.of_nat (length m1) -> 0 <= len <= Z.of_nat (length m2) ->
  contents m1 len ≡ₚ contents m2 len ->
  exists checksum,
    fst <$> mock_send m1 len = Some checksum
    /\ fst <$> mock_send m2 len = Some checksum.
Proof.
  intros H1 H2 Hperm.
  rewrite (mock_send_spec m1 len H1), (mock_send_spec m2 len H2).
  rewrite (byte_sum_perm _ _ Hperm). eexists. split; reflexivity.
Qed.

Lemma mock_send_ignores_order_witness :
  0 <= 2 <= Z.of_nat (length [0x10; 0xF3; 7]) /\ 0 <= 2 <= Z.of_nat (length [0xF3; 0x10])
  /\ contents [0x10; 0xF3; 7] 2 ≡ₚ contents [0xF3; 0x10] 2
  /\ fst <$> mock_send [0x10; 0xF3; 7] 2 = fst <$> mock_send [0xF3; 0x10] 2.
Proof.
  assert (H1 : 0 <= 2 <= Z.of_nat (length [0x10; 0xF3; 7])) by (simpl; lia).
  assert (H2 : 0 <= 2 <= Z.of_nat (length [0xF3; 0x10])) by (simpl; lia).
  assert (Hp : contents [0x10; 0xF3; 7] 2 ≡ₚ contents [0xF3; 0x10] 2)
    by (simpl; apply perm_swap).
  split; [exact H1 |]. split; [exact H2 |]. split; [exact Hp |].
  destruct (mock_send_ignores_order _ _ _ H1 H2 Hp) as (c & E1 & E2).
  rewrite E1, E2. reflexivity.
Defined.

(** X3: a buffer can be summed in two pieces: the checksum of the first
    [len] bytes is the 64-bit sum of the checksum of the first [k] bytes and
    the checksum of the [len - k] bytes that start at [data + k]. *)
Theorem mock_send_in_two_calls (data : mem) (k len : Z) :
  0 <= k <= len -> len <= Z.of_nat (length data) ->
  exists s1 s2,
    fst <$> mock_send data k = Some s1
    /\ fst <$> mock_send (beyond data k) (len - k) = Some s2
    /\ fst <$> mock_send data len = Some (wrap_s64 (s1 + s2)).
Proof.
  intros Hk Hlen.
  rewrite (mock_send_spec data k ltac:(lia)), (mock_send_spec data len ltac:(lia)).
  rewrite (mock_send_spec (beyond data k) (len - k))
    by (rewrite beyond_size; lia).
  cbn [fmap option_fmap option_map fst].
  eexists _, _. split; [reflexivity |]. split; [reflexivity |].
  rewrite wrap_s64_add, (contents_split data k len Hk), byte_sum_app. reflexivity.
Qed.

Lemma mock_send_in_two_calls_witness :
  0 <= 2 <= 5 /\ 5 <= Z.of_nat (length [10; 20; 30; 40; 50; 60])
  /\ fst <$> mock_send [10; 20; 30; 40; 50; 60] 2 = Some 30
  /\ fst <$> mock_send [30; 40; 50; 60] 3 = Some 120
  /\ fst <$> mock_send [10; 20; 30; 40; 50; 60] 5 = Some 150.
Proof.
  assert (Hk : 0 <= 2 <= 5) by lia.
  assert (Hlen : 5 <= Z.of_nat (length [10; 20; 30; 40; 50; 60])) by (simpl; lia).
  split; [exact Hk |]. split; [exact Hlen |].
  destruct (mock_send_in_two_calls _ _ _ Hk Hlen) as (s1 & s2 & E1 & E2 & E).
  assert (s1 = 30) as -> by (cbv in E1; congruence).
  assert (s2 = 120) as -> by (cbv in E2; congruence).
  split; [exact E1 |]. split; [exact E2 |]. exact E.
Defined.

(** X4: as long as the accumulator cannot overflow ([255 * len < 2^63]),
    the checksum never decreases when more bytes of the same buffer are
    summed. *)
Theorem mock_send_monotone (data : mem) (k len : Z) :
  valid_buffer data len -> 0 <= k <= len -> 255 * len < 2 ^ 63 ->
  exists s1 s2,
    fst <$> mock_send data k = Some s1
    /\ fst <$> mock_send data len = Some s2
    /\ s1 <= s2.
Proof.
  intros [[Hu8 Hmax] Hlen] Hk Hfit.
  rewrite (mock_send_spec data k ltac:(lia)), (mock_send_spec data len ltac:(lia)).
  cbn [fmap option_fmap option_map fst].
  eexists _, _. split; [reflexivity |]. split; [reflexivity |].
  rewrite (contents_split data k len Hk), byte_sum_app.
  pose proof (byte_sum_bounds (contents data k) (Forall_take _ _ _ Hu8)) as B1.
  pose proof (byte_sum_bounds (contents (beyond data k) (len - k))
                (Forall_take _ _ _ (Forall_drop _ _ _ Hu8))) as B2.
  unfold contents, beyond in B1, B2. rewrite length_take in B1, B2.
  rewrite length_drop in B2.
  unfold contents, beyond.
  rewrite !wrap_s64_id; unfold is_s64, INT64_MIN, INT64_MAX; lia.
Qed.

Lemma mock_send_monotone_witness :
  valid_buffer [9; 0; 255; 1] 4 /\ 0 <= 1 <= 4 /\ 255 * 4 < 2 ^ 63
  /\ exists s1 s2,
       fst <$> mock_send [9; 0; 255; 1] 1 = Some s1
       /\ fst <$> mock_send [9; 0; 255; 1] 4 = Some s2
       /\ s1 <= s2.
Proof.
  assert (H : valid_buffer [9; 0; 255; 1] 4) by concrete_buffer.
  assert (Hk : 0 <= 1 <= 4) by lia.
  assert (Hfit : 255 * 4 < 2 ^ 63) by lia.
  split; [exact H |]. split; [exact Hk |]. split; [exact Hfit |].
  exact (mock_send_monotone _ _ _ H Hk Hfit).
Defined.

(** ** mock_recv followed by another call *)

Lemma byte_sum_pattern (n : nat) :
  2 * byte_sum (pattern_at <$> seq 0 n)
  = 65280 * (Z.of_nat n / 256)
    + (Z.of_nat n mod 256) * (Z.of_nat n mod 256 - 1).
Proof.
  induction n as [| n IH]; [reflexivity |].
  rewrite seq_S, fmap_app, byte_sum_app. cbn [fmap list_fmap byte_sum foldr plus].
  unfold pattern_at at 2. rewrite Nat2Z.inj_succ. unfold Z.succ.
  pose proof (Z.div_mod (Z.of_nat n) 256 ltac:(lia)) as E.
  pose proof (Z.mod_pos_bound (Z.of_nat n) 256 ltac:(lia)) as B.
  pose proof (Z.div_mod (Z.of_nat n + 1) 256 ltac:(lia)) as E'.
  pose proof (Z.mod_pos_bound (Z.of_nat n + 1) 256 ltac:(lia)) as B'.
  set (q := Z.of_nat n / 256) in *. set (r := Z.of_nat n mod 256) in *.
  set (q' := (Z.of_nat n + 1) / 256) in *.
  set (r' := (Z.of_nat n + 1) mod 256) in *.
  destruct (Z.eq_dec r 255) as [Hr | Hr].
  - assert (q' = q + 1) as -> by lia. assert (r' = 0) as -> by lia. lia.
  - assert (q' = q) as -> by lia. assert (r' = r + 1) as -> by lia. lia.
Qed.

Lemma pattern_checksum_sum len :
  0 <= len -> byte_sum (pattern_fill len) = pattern_checksum len.
Proof.
  intros Hpos. unfold pattern_fill, pattern_checksum.
  pose proof (byte_sum_pattern (Z.to_nat len)) as H.
  rewrite Z2Nat.id in H by exact Hpos.
  set (s := byte_sum _) in *. set (q := len / 256) in *.
  set (r := len mod 256) in *.
  replace (r * (r - 1)) with ((s - 32640 * q) * 2) by lia.
  rewrite Z.div_mul by lia. lia.
Qed.

(** X5: the checksum of a received buffer is known from its length alone:
    mock_send run on what mock_recv wrote returns
    [32640 * (len / 256) + r * (r - 1) / 2] with [r = len mod 256], wrapped
    to 64 bits, and exactly that number whenever it fits. *)
Theorem mock_send_after_recv (buf : mem) (len : Z) :
  in_bounds buf len ->
  exists buf' : mem,
    mock_recv buf len = Some (len, buf')
    /\ fst <$> mock_send buf' len = Some (wrap_s64 (pattern_checksum len))
    /\ (pattern_checksum len <= INT64_MAX ->
        fst <$> mock_send buf' len = Some (pattern_checksum len)).
Proof.
  intros H. pose proof H as [Hlen Hmax].
  destruct (mock_recv_full buf len H) as (buf' & Hrun & Hsize & Hc & _).
  exists buf'. split; [exact Hrun |].
  rewrite (mock_send_spec buf' len) by (rewrite Hsize; lia).
  cbn [fmap option_fmap option_map fst].
  rewrite Hc, (pattern_checksum_sum len) by lia.
  split; [reflexivity |]. intros Hfit. rewrite wrap_s64_id; [reflexivity |].
  assert (0 <= pattern_checksum len).
  { rewrite <- pattern_checksum_sum by lia. unfold pattern_fill.
    apply byte_sum_bounds, Forall_fmap, Forall_forall. intros p _.
    unfold is_u8, pattern_at. simpl. apply Z.mod_pos_bound. lia. }
  unfold is_s64, INT64_MIN. lia.
Qed.

Lemma mock_send_after_recv_witness :
  in_bounds (replicate 600 0xEE) 600
  /\ exists buf' : mem,
       mock_recv (replicate 600 0xEE) 600 = Some (600, buf')
       /\ fst <$> mock_send buf' 600 = Some 69108.
Proof.
  assert (H : in_bounds (replicate 600 0xEE) 600) by concrete_buffer.
  split; [exact H |].
  destruct (mock_send_after_recv _ _ H) as (buf' & Hrun & _ & Hsum).
  exists buf'. split; [exact Hrun |].
  apply Hsum. vm_compute. discriminate.
Defined.

(** X6: mock_recv is idempotent: a second call with the same length on the
    memory the first call left returns the same value and changes
    nothing. *)
Theorem mock_recv_idempotent (buf : mem) (len : Z) :
  in_bounds buf len ->
  exists buf' : mem,
    mock_recv buf len = Some (len, buf')
    /\ mock_recv buf' len = Some (len, buf').
Proof.
  intros H. pose proof H as [Hlen Hmax].
  destruct (mock_recv_full buf len H) as (b1 & R1 & S1 & _).
  destruct (mock_recv_spec buf len Hlen) as (b1' & R1' & _ & G1).
  assert (b1' = b1) as -> by congruence.
  assert (H' : in_bounds b1 len) by (unfold in_bounds; rewrite S1; exact H).
  destruct (mock_recv_full b1 len H') as (b2 & R2 & S2 & _).
  destruct (mock_recv_spec b1 len ltac:(lia)) as (b2' & R2' & _ & G2).
  assert (b2' = b2) as -> by congruence.
  exists b1. split; [exact R1 |]. rewrite R2. do 2 f_equal.
  apply list_eq. intros p. rewrite G2, G1. case_decide; reflexivity.
Qed.

Lemma mock_recv_idempotent_witness :
  in_bounds [9; 9; 9; 9] 3
  /\ mock_recv [9; 9; 9; 9] 3 = Some (3, [0; 1; 2; 9])
  /\ mock_recv [0; 1; 2; 9] 3 = Some (3, [0; 1; 2; 9]).
Proof.
  assert (H : in_bounds [9; 9; 9; 9] 3) by concrete_buffer.
  split; [exact H |].
  destruct (mock_recv_idempotent _ _ H) as (buf' & R1 & R2).
  assert (buf' = [0; 1; 2; 9]) as -> by (cbv in R1; congruence).
  split; [exact R1 | exact R2].
Defined.

(** X7: receiving in two calls, [k] bytes at [buf] and then [len - k] bytes
    at [buf + k], leaves the same memory as one call for [len] bytes when
    [k] is a multiple of 256 (the second call starts the pattern again at
    0), and the two returned counts, [k] and [len - k], add up to [len]. *)
Theorem mock_recv_in_two_calls (buf : mem) (k len : Z) :
  in_bounds buf len -> 0 <= k <= len -> k mod 256 = 0 ->
  exists b1 b2 : mem,
    mock_recv buf k = Some (k, b1)
    /\ mock_recv (beyond b1 k) (len - k) = Some (len - k, b2)
    /\ mock_recv buf len = Some (k + (len - k), contents b1 k ++ b2).
Proof.
  intros H Hk Hmod. pose proof H as [Hlen Hmax].
  assert (Hbk : in_bounds buf k) by (unfold in_bounds; lia).
  destruct (mock_recv_full buf k Hbk) as (b1 & R1 & S1 & _).
  destruct (mock_recv_spec buf k ltac:(lia)) as (b1' & R1' & _ & G1).
  assert (b1' = b1) as -> by congruence.
  assert (Hsz : Z.of_nat (length (beyond b1 k)) = Z.of_nat (length buf) - k).
  { rewrite beyond_size; lia. }
  assert (Hb2 : in_bounds (beyond b1 k) (len - k)) by (unfold in_bounds; lia).
  destruct (mock_recv_full _ _ Hb2) as (b2 & R2 & S2 & _).
  destruct (mock_recv_spec (beyond b1 k) (len - k) ltac:(lia)) as (b2' & R2' & _ & G2).
  assert (b2' = b2) as -> by congruence.
  destruct (mock_recv_full buf len H) as (b & R & S & _).
  destruct (mock_recv_spec buf len Hlen) as (b' & R' & _ & G).
  assert (b' = b) as -> by congruence.
  exists b1, b2. split; [exact R1 |]. split; [exact R2 |].
  rewrite R. replace (k + (len - k)) with len by lia. do 2 f_equal.
  assert (Hck : length (contents b1 k) = Z.to_nat k).
  { unfold contents. apply length_take_le. lia. }
  apply list_eq. intros p. rewrite G.
  destruct (decide (p < Z.to_nat k)%nat) as [Hp | Hp].
  - rewrite lookup_app_l by lia. rewrite contents_lookup, G1.
    repeat case_decide; try lia; reflexivity.
  - rewrite lookup_app_r by lia. rewrite Hck, G2, beyond_lookup, G1.
    replace (Z.to_nat k + (p - Z.to_nat k))%nat with p by lia.
    repeat case_decide; try lia; try reflexivity.
    f_equal. unfold pattern_at.
    replace (Z.of_nat p) with (Z.of_nat (p - Z.to_nat k) + k) by lia.
    rewrite <- Zplus_mod_idemp_r, Hmod, Z.add_0_r. reflexivity.
Qed.

Lemma mock_recv_in_two_calls_witness :
  in_bounds (replicate 260 0xEE) 259 /\ 0 <= 256 <= 259 /\ 256 mod 256 = 0
  /\ exists (b1 b2 : mem),
       mock_recv (replicate 260 0xEE) 256 = Some (256, b1)
       /\ mock_recv (beyond b1 256) 3 = Some (3, b2)
       /\ mock_recv (replicate 260 0xEE) 259 = Some (259, contents b1 256 ++ b2).
Proof.
  assert (H : in_bounds (replicate 260 0xEE) 259) by concrete_buffer.
  assert (Hk : 0 <= 256 <= 259) by lia.
  assert (Hmod : 256 mod 256 = 0) by reflexivity.
  split; [exact H |]. split; [exact Hk |]. split; [exact Hmod |].
  destruct (mock_recv_in_two_calls _ _ _ H Hk Hmod) as (b1 & b2 & R1 & R2 & R).
  exists b1, b2. split; [exact R1 |]. split; [exact R2 |]. exact R.
Defined.

(** ** mock_transform as a byte-wise bijection *)

Lemma masked_ne d : is_u8 d -> masked d <> d.
Proof.
  intros Hd E. rewrite (masked_byte d Hd) in E.
  assert (H : Z.lxor d (Z.lxor d 0xAA) = Z.lxor d d) by (rewrite E; reflexivity).
  rewrite <- Z.lxor_assoc, Z.lxor_nilpotent, Z.lxor_0_l in H. discriminate.
Qed.

Lemma masked_inj d1 d2 : is_u8 d1 -> is_u8 d2 -> masked d1 = masked d2 -> d1 = d2.
Proof.
  intros H1 H2 E. rewrite <- (masked_twice d1 H1), <- (masked_twice d2 H2), E.
  reflexivity.
Qed.

(** X8: mock_transform leaves no byte of the buffer as it was: after the
    call, the byte at every position of [0, len) differs from the original
    byte. *)
Theorem mock_transform_changes_every_byte (data : mem) (len : Z) :
  valid_buffer data len ->
  exists data' : mem,
    mock_transform data len = Some (tt, data')
    /\ forall i, 0 <= i < len -> data' !! Z.to_nat i <> data !! Z.to_nat i.
Proof.
  intros [[Hu8 Hmax] Hlen].
  destruct (mock_transform_spec data len Hlen) as (data' & Hrun & _ & Hget).
  exists data'. split; [exact Hrun |].
  intros i Hi. rewrite Hget. case_decide; [| lia].
  destruct (lookup_lt_is_Some_2 data (Z.to_nat i) ltac:(lia)) as [d Hd].
  rewrite Hd. cbn [fmap option_fmap option_map]. intros [= E].
  exact (masked_ne d (proj1 (Forall_lookup _ _) Hu8 _ _ Hd) E).
Qed.

Lemma mock_transform_changes_every_byte_witness :
  valid_buffer [0xAA; 0x00; 0x55] 3
  /\ exists data' : mem,
       mock_transform [0xAA; 0x00; 0x55] 3 = Some (tt, data')
       /\ data' !! 0%nat <> Some 0xAA.
Proof.
  assert (H : valid_buffer [0xAA; 0x00; 0x55] 3) by concrete_buffer.
  split; [exact H |].
  destruct (mock_transform_changes_every_byte _ _ H) as (data' & Hrun & Hne).
  exists data'. split; [exact Hrun |]. exact (Hne 0 ltac:(lia)).
Defined.

(** X9: mock_transform loses nothing: two memories that the same call
    turns into the same memory were the same memory. *)
Theorem mock_transform_injective (m1 m2 : mem) (len : Z) :
  valid_buffer m1 len -> valid_buffer m2 len ->
  mock_transform m1 len = mock_transform m2 len ->
  m1 = m2.
Proof.
  intros [[U1 _] L1] [[U2 _] L2] E.
  destruct (mock_transform_spec m1 len L1) as (c1 & R1 & _ & G1).
  destruct (mock_transform_spec m2 len L2) as (c2 & R2 & _ & G2).
  assert (c1 = c2) as -> by congruence.
  apply list_eq. intros p. specialize (G1 p). rewrite G2 in G1.
  case_decide; [| congruence].
  destruct (lookup_lt_is_Some_2 m1 p ltac:(lia)) as [d1 Hd1].
  destruct (lookup_lt_is_Some_2 m2 p ltac:(lia)) as [d2 Hd2].
  rewrite Hd1, Hd2 in *. cbn [fmap option_fmap option_map] in G1.
  f_equal. injection G1 as G1. symmetry.
  apply masked_inj; [| | exact G1].
  - exact (proj1 (Forall_lookup _ _) U2 _ _ Hd2).
  - exact (proj1 (Forall_lookup _ _) U1 _ _ Hd1).
Qed.

Lemma mock_transform_injective_witness :
  valid_buffer [1; 2; 3] 2 /\ valid_buffer [1; 2; 3] 2
  /\ mock_transform [1; 2; 3] 2 = mock_transform [1; 2; 3] 2
  /\ [1; 2; 3] = [1; 2; 3].
Proof.
  assert (H : valid_buffer [1; 2; 3] 2) by concrete_buffer.
  split; [exact H |]. split; [exact H |]. split; [reflexivity |].
  exact (mock_transform_injective _ _ _ H H eq_refl).
Defined.

(** X10: a buffer can be transformed in two pieces: [k] bytes at [data],
    then [len - k] bytes at [data + k], give the memory that one call for
    [len] bytes gives. *)
Theorem mock_transform_in_two_calls (data : mem) (k len : Z) :
  0 <= k <= len -> len <= Z.of_nat (length data) ->
  exists d1 d2 : mem,
    mock_transform data k = Some (tt, d1)
    /\ mock_transform (beyond d1 k) (len - k) = Some (tt, d2)
    /\ mock_transform data len = Some (tt, contents d1 k ++ d2).
Proof.
  intros Hk Hlen.
  destruct (mock_transform_spec data k ltac:(lia)) as (d1 & R1 & S1 & G1).
  destruct (mock_transform_spec (beyond d1 k) (len - k)) as (d2 & R2 & S2 & G2).
  { rewrite beyond_size; lia. }
  destruct (mock_transform_spec data len ltac:(lia)) as (d & R & S & G).
  exists d1, d2. split; [exact R1 |]. split; [exact R2 |].
  rewrite R. do 2 f_equal.
  assert (Hck : length (contents d1 k) = Z.to_nat k).
  { unfold contents. apply length_take_le. lia. }
  apply list_eq. intros p. rewrite G.
  destruct (decide (p < Z.to_nat k)%nat) as [Hp | Hp].
  - rewrite lookup_app_l by lia. rewrite contents_lookup, G1.
    repeat case_decide; try lia; reflexivity.
  - rewrite lookup_app_r by lia. rewrite Hck, G2, beyond_lookup, G1.
    replace (Z.to_nat k + (p - Z.to_nat k))%nat with p by lia.
    repeat case_decide; try lia; reflexivity.
Qed.

Lemma mock_transform_in_two_calls_witness :
  0 <= 1 <= 3 /\ 3 <= Z.of_nat (length [0x00; 0xFF; 0xAA; 0x42])
  /\ exists d1 d2 : mem,
       mock_transform [0x00; 0xFF; 0xAA; 0x42] 1 = Some (tt, d1)
       /\ mock_transform (beyond d1 1) 2 = Some (tt, d2)
       /\ mock_transform [0x00; 0xFF; 0xAA; 0x42] 3 = Some (tt, contents d1 1 ++ d2).
Proof.
  assert (Hk : 0 <= 1 <= 3) by lia.
  assert (Hlen : 3 <= Z.of_nat (length [0x00; 0xFF; 0xAA; 0x42])) by (simpl; lia).
  split; [exact Hk |]. split; [exact Hlen |].
  exact (mock_transform_in_two_calls _ _ _ Hk Hlen).
Defined.

(** X11: two calls with different lengths undo each other only on the
    common prefix: after mock_transform for [k] bytes and then for [len]
    bytes ([k <= len]), the first [k] bytes are the original ones and the
    bytes at positions [k, len) are the original ones XOR 0xAA. *)
Theorem mock_transform_overlap (data : mem) (k len : Z) :
  valid_buffer data len -> 0 <= k <= len ->
  exists d1 d2 : mem,
    mock_transform data k = Some (tt, d1)
    /\ mock_transform d1 len = Some (tt, d2)
    /\ contents d2 k = contents data k
    /\ forall i d, k <= i < len -> data !! Z.to_nat i = Some d ->
         d2 !! Z.to_nat i = Some (Z.lxor d 0xAA).
Proof.
  intros [[Hu8 Hmax] Hlen] Hk.
  destruct (mock_transform_spec data k ltac:(lia)) as (d1 & R1 & S1 & G1).
  destruct (mock_transform_spec d1 len ltac:(lia)) as (d2 & R2 & S2 & G2).
  exists d1, d2. split; [exact R1 |]. split; [exact R2 |]. split.
  - apply list_eq. intros p. rewrite !contents_lookup, G2, G1.
    repeat case_decide; try lia; try reflexivity.
    destruct (data !! p) as [d |] eqn:Hd; [| reflexivity].
    cbn [fmap option_fmap option_map]. f_equal.
    apply masked_twice. exact (proj1 (Forall_lookup _ _) Hu8 _ _ Hd).
  - intros i d Hi Hd. rewrite G2, G1. repeat case_decide; try lia.
    rewrite Hd. cbn [fmap option_fmap option_map]. f_equal.
    apply masked_byte. exact (proj1 (Forall_lookup _ _) Hu8 _ _ Hd).
Qed.

Lemma mock_transform_overlap_witness :
  valid_buffer [0x01; 0x02; 0x03; 0x04] 3 /\ 0 <= 2 <= 3
  /\ exists d1 d2 : mem,
       mock_transform [0x01; 0x02; 0x03; 0x04] 2 = Some (tt, d1)
       /\ mock_transform d1 3 = Some (tt, d2)
       /\ contents d2 2 = [0x01; 0x02]
       /\ d2 !! 2%nat = Some 0xA9.
Proof.
  assert (H : valid_buffer [0x01; 0x02; 0x03; 0x04] 3) by concrete_buffer.
  assert (Hk : 0 <= 2 <= 3) by lia.
  split; [exact H |]. split; [exact Hk |].
  destruct (mock_transform_overlap _ _ _ H Hk) as (d1 & d2 & R1 & R2 & C & G).
  exists d1, d2. split; [exact R1 |]. split; [exact R2 |]. split; [exact C |].
  exact (G 2 0x03 ltac:(lia) eq_refl).
Defined.

(** ** Well-formedness and mixed sequences *)



(** X13: mock_transform applied to a received buffer: the byte at every
    position [i] of [0, len) is [(i mod 256) XOR 0xAA]; the buffer holds the
    pattern of mock_recv masked byte by byte. *)
Theorem mock_transform_after_recv (buf : mem) (len : Z) :
  in_bounds buf len ->
  exists b1 b2 : mem,
    mock_recv buf len = Some (len, b1)
    /\ mock_transform b1 len = Some (tt, b2)
    /\ (forall i, 0 <= i < len ->
          b2 !! Z.to_nat i = Some (Z.lxor (i mod 256) 0xAA))
    /\ contents b2 len = masked <$> pattern_fill len.
Proof.
  intros H. pose proof H as [Hlen Hmax].
  destruct (mock_recv_full buf len H) as (b1 & R1 & S1 & C1 & _).
  destruct (mock_transform_full b1 len ltac:(lia)) as (b2 & R2 & S2 & C2 & _).
  exists b1, b2. split; [exact R1 |]. split; [exact R2 |].
  rewrite C1 in C2. split; [| exact C2].
  intros i Hi.
  assert (E : contents b2 len !! Z.to_nat i = b2 !! Z.to_nat i).
  { rewrite contents_lookup. case_decide; [reflexivity | lia]. }
  rewrite <- E, C2, list_lookup_fmap, pattern_fill_lookup.
  case_decide; [| lia]. cbn [fmap option_fmap option_map]. f_equal.
  unfold pattern_at. rewrite Z2Nat.id by lia. apply masked_byte.
  unfold is_u8. apply Z.mod_pos_bound. lia.
Qed.

Lemma mock_transform_after_recv_witness :
  in_bounds [0; 0; 0; 0] 4
  /\ exists b1 b2 : mem,
       mock_recv [0; 0; 0; 0] 4 = Some (4, b1)
       /\ mock_transform b1 4 = Some (tt, b2)
       /\ b2 !! 3%nat = Some 0xA9.
Proof.
  assert (H : in_bounds [0; 0; 0; 0] 4) by concrete_buffer.
  split; [exact H |].
  destruct (mock_transform_after_recv _ _ H) as (b1 & b2 & R1 & R2 & G & _).
  exists b1, b2. split; [exact R1 |]. split; [exact R2 |].
  exact (G 3 ltac:(lia)).
Defined.
